(** * Kinematic envelopes of rock-slope failure (envelopes.py)

    Shallow embedding of the numeric and plotting behaviour of
    [envelopes.py]: the six envelope calculators and [setup_axes].

    - numbers are abstracted by the class [Num] (the arithmetic the code
      performs), with an exact instance on [Q] and an IEEE binary64 instance
      on primitive floats (the dtype numpy uses);
    - a Python argument "number or sequence of numbers" is [arg], and
      [np.atleast_1d] turns it into a 1-D array, modelled as a list;
    - numpy broadcasting of 1-D arrays (equal lengths, or one side of
      length 1, otherwise a shape error) is [bcast_len] / [bget];
    - a returned value is either a numpy array or a Python scalar ([val]);
    - the drawing done through [plt.gca()] when [to_plot] holds is returned
      as a list of [draw] commands, so colours and segment counts appear in
      the model exactly where the code uses them;
    - the pole conversion [st.pole2plunge_bearing] belongs to the external
      mplstereonet package and is a parameter of the development. *)

From Stdlib Require Import ZArith QArith Qminmax String Ascii Floats Lia.
From Stdlib Require Import List.
Import ListNotations.

(** ** Arithmetic performed by the code *)

Class Num (A : Type) := {
  num_of_Z : Z -> A;          (* integer literals such as 45, 2., 90 *)
  num_add : A -> A -> A;
  num_sub : A -> A -> A;
  num_mul : A -> A -> A;
  num_div : A -> A -> A;
  num_gtb : A -> A -> bool;   (* Python / numpy [x > y] *)
  num_eps : A                 (* the value of [10**-9] *)
}.

#[export] Instance Num_Q : Num Q := {
  num_of_Z := inject_Z;
  num_add := Qplus;
  num_sub := Qminus;
  num_mul := Qmult;
  num_div := Qdiv;
  num_gtb := fun x y => negb (Qle_bool x y);
  num_eps := 1 # 1000000000
}.

Definition float_of_Z (z : Z) : float :=
  if (z <? 0)%Z then PrimFloat.opp (PrimFloat.of_uint63 (Uint63.of_Z (- z)))
  else PrimFloat.of_uint63 (Uint63.of_Z z).

(** [10**-9] in Python is the double nearest to 1e-9, written here in
    hexadecimal so that it is read without rounding. *)
#[export] Instance Num_float : Num float := {
  num_of_Z := float_of_Z;
  num_add := PrimFloat.add;
  num_sub := PrimFloat.sub;
  num_mul := PrimFloat.mul;
  num_div := PrimFloat.div;
  num_gtb := fun x y => PrimFloat.ltb y x;
  num_eps := 0x1.12e0be826d695p-30%float
}.

(** ** numpy arrays and Python arguments *)

(** A "number or sequence of numbers" argument. *)
Inductive arg (A : Type) : Type :=
| Scalar (x : A)
| Seq (xs : list A).
Arguments Scalar {A} x.
Arguments Seq {A} xs.

(** [np.atleast_1d] on one argument. *)
Definition atleast_1d {A} (a : arg A) : list A :=
  match a with
  | Scalar x => [x]
  | Seq xs => xs
  end.

(** A returned value: a numpy array or a plain Python number. *)
Inductive val (A : Type) : Type :=
| VScalar (x : A)
| VArr (xs : list A).
Arguments VScalar {A} x.
Arguments VArr {A} xs.

(** Element [i] of a value under broadcasting. *)
Definition vat {A} (d : A) (v : val A) (i : nat) : A :=
  match v with
  | VScalar x => x
  | VArr xs => nth i xs d
  end.

(** Length of the broadcast of two 1-D shapes; [None] is numpy's
    "operands could not be broadcast together" error. *)
Definition bcast_len (n m : nat) : option nat :=
  if Nat.eqb n m then Some n
  else if Nat.eqb n 1 then Some m
  else if Nat.eqb m 1 then Some n
  else None.

(** Element [i] of an array stretched by broadcasting. *)
Definition bget {T} (d : T) (xs : list T) (i : nat) : T :=
  match xs with
  | [x] => x
  | _ => nth i xs d
  end.

(** A binary elementwise numpy operation such as [dip - friction]. *)
Definition bcast2 {T U V} (dt : T) (du : U) (f : T -> U -> V)
    (xs : list T) (ys : list U) : option (list V) :=
  match bcast_len (length xs) (length ys) with
  | Some n => Some (map (fun i => f (bget dt xs i) (bget du ys i)) (seq 0 n))
  | None => None
  end.

(** [np.where(cond, x, y)]: the three arrays are broadcast together. *)
Definition np_where {A} (d : A) (c : list bool) (x y : list A)
    : option (list A) :=
  match bcast_len (length c) (length x) with
  | None => None
  | Some n1 =>
      match bcast_len n1 (length y) with
      | None => None
      | Some n =>
          Some (map (fun i => if bget false c i then bget d x i else bget d y i)
                    (seq 0 n))
      end
  end.

(** ** Drawing on the current stereonet axes *)

(** [ax.cone(plunge, bearing, angle, facecolor=..., edgecolor=...)] and
    [ax.plane(strike, dip, c=...)]. *)
Inductive draw (A : Type) : Type :=
| DCone (plunge bearing angle : val A) (facecolor edgecolor : string)
| DPlane (strike dip : val A) (linecolor : string).
Arguments DCone {A} plunge bearing angle facecolor edgecolor.
Arguments DPlane {A} strike dip linecolor.

Definition when_plot {A} (to_plot : bool) (d : draw A) : list (draw A) :=
  if to_plot then [d] else [].

(** A Python integer literal in a numeric expression. *)
Definition lit {A} `{Num A} (z : Z) : A := num_of_Z z.

(** ** The envelope calculators *)

Section Envelopes.
Context {A : Type} `{NA : Num A}.

(** [st.pole2plunge_bearing(strike, dip)] of mplstereonet, applied to the
    1-D arrays produced by [np.atleast_1d]. *)
Variable pole2plunge_bearing : list A -> list A -> list A * list A.

(** [planar_daylight(strike, dip, to_plot, facecolor, edgecolor, segments)] *)
Definition planar_daylight (strike dip : arg A) (to_plot : bool)
    (facecolor edgecolor : string) (segments : Z)
    : (list A * list A * list A) * list (draw A) :=
  let strike := atleast_1d strike in
  let dip := atleast_1d dip in
  let '(p_plunge, p_bearing) := pole2plunge_bearing strike dip in
  let pde_plunge := map (fun p => num_add (lit 45) (num_div p (lit 2))) p_plunge in
  let pde_bearing := p_bearing in
  let pde_angle :=
    map (fun p => num_sub (num_sub (lit 45) (num_div p (lit 2))) num_eps) p_plunge in
  ((pde_plunge, pde_bearing, pde_angle),
   when_plot to_plot
     (DCone (VArr pde_plunge) (VArr pde_bearing) (VArr pde_angle) facecolor edgecolor)).

(** [planar_friction(friction, to_plot, facecolor, edgecolor, segments)] *)
Definition planar_friction (friction : arg A) (to_plot : bool)
    (facecolor edgecolor : string) (segments : Z)
    : (list A * list A * list A) * list (draw A) :=
  let friction := atleast_1d friction in
  let pfe_plunge := repeat (num_mul (lit 90) (lit 1)) (length friction) in
  let pfe_bearing := repeat (lit 0) (length friction) in
  let pfe_angle := friction in
  ((pfe_plunge, pfe_bearing, pfe_angle),
   when_plot to_plot
     (DCone (VArr pfe_plunge) (VArr pfe_bearing) (VArr pfe_angle) facecolor edgecolor)).

(** [wedge_daylight(strike, dip, to_plot, linecolor, segments)] *)
Definition wedge_daylight (strike dip : arg A) (to_plot : bool)
    (linecolor : string) (segments : Z)
    : (list A * list A) * list (draw A) :=
  let wde_strike := atleast_1d strike in
  let wde_dip := atleast_1d dip in
  ((wde_strike, wde_dip),
   when_plot to_plot (DPlane (VArr wde_strike) (VArr wde_dip) linecolor)).

(** [wedge_friction(friction, to_plot, facecolor, edgecolor, segments)] *)
Definition wedge_friction (friction : arg A) (to_plot : bool)
    (facecolor edgecolor : string) (segments : Z)
    : (list A * list A * list A) * list (draw A) :=
  let friction := atleast_1d friction in
  let wfe_plunge := repeat (num_mul (lit 90) (lit 1)) (length friction) in
  let wfe_bearing := repeat (lit 0) (length friction) in
  let wfe_angle := map (fun f => num_sub (lit 90) f) friction in
  ((wfe_plunge, wfe_bearing, wfe_angle),
   when_plot to_plot
     (DCone (VArr wfe_plunge) (VArr wfe_bearing) (VArr wfe_angle) facecolor edgecolor)).

(** [toppling_slipLimits(strike, dip, to_plot, linecolor, segments)]: the
    plunge [0] and the angle [60] are Python integers, not arrays, and the
    cone is drawn with the fixed colours ['none'] and ['b']. *)
Definition toppling_slipLimits (strike dip : arg A) (to_plot : bool)
    (linecolor : string) (segments : Z)
    : (val A * val A * val A) * list (draw A) :=
  let strike := atleast_1d strike in
  let dip := atleast_1d dip in
  let tsl_plunge := VScalar (lit 0) in
  let tsl_bearing := VArr strike in
  let tsl_angle := VScalar (lit 60) in
  ((tsl_plunge, tsl_bearing, tsl_angle),
   when_plot to_plot (DCone tsl_plunge tsl_bearing tsl_angle "none" "b")).

(** [toppling_friction(strike, dip, friction, to_plot, linecolor, segments)]:
    [np.where(dip-friction>0, dip-friction, np.zeros(len(tfe_strike)))];
    [None] is the broadcasting error numpy raises. *)
Definition toppling_friction (strike dip friction : arg A) (to_plot : bool)
    (linecolor : string) (segments : Z)
    : option ((list A * list A) * list (draw A)) :=
  let friction := atleast_1d friction in
  let tfe_strike := atleast_1d strike in
  let dip := atleast_1d dip in
  match bcast2 (lit 0) (lit 0) num_sub dip friction with
  | None => None
  | Some diff =>
      let cond := map (fun x => num_gtb x (lit 0)) diff in
      match np_where (lit 0) cond diff (repeat (lit 0) (length tfe_strike)) with
      | None => None
      | Some tfe_dip =>
          Some ((tfe_strike, tfe_dip),
                when_plot to_plot (DPlane (VArr tfe_strike) (VArr tfe_dip) linecolor))
      end
  end.

End Envelopes.

(** ** [setup_axes] *)

Inductive calc : Type :=
| CPlanarFriction | CPlanarDaylight | CWedgeFriction | CWedgeDaylight
| CTopplingFriction | CTopplingSlipLimits.

(** The figure-level effects of [setup_axes], in the order they happen. *)
Inductive event (A : Type) : Type :=
| ESubplots (ncols : nat)           (* st.subplots(ncols=..., projection=...) *)
| EFigure                            (* plt.figure(); fig.add_subplot(111, ...) *)
| ESlopeFace (axis : nat) (strike dip : arg A)  (* ax.plane(strike,dip,'k--',...) *)
| ESca (axis : nat)                  (* plt.sca(ax[axis]) *)
| ETitle (axis : nat) (title : string)
| EGrid (axis : nat)
| ECall (c : calc)                   (* a calculator is entered *)
| EDraw (axis : nat) (d : draw A)    (* a calculator draws on plt.gca() *)
| ETightLayout.
Arguments ESubplots {A} ncols.
Arguments EFigure {A}.
Arguments ESlopeFace {A} axis strike dip.
Arguments ESca {A} axis.
Arguments ETitle {A} axis title.
Arguments EGrid {A} axis.
Arguments ECall {A} c.
Arguments EDraw {A} axis d.
Arguments ETightLayout {A}.

(** The returned [ax]: the array of three axes or the single axes. *)
Inductive axes : Type :=
| AxArray (ids : list nat)
| AxSingle (id : nat).

Definition newline : string := String (ascii_of_nat 10) EmptyString.
Definition title (s : string) : string := s ++ newline ++ newline.

Definition call {A} (cur : nat) (c : calc) (ds : list (draw A)) : list (event A) :=
  ECall c :: map (EDraw cur) ds.

Section SetupAxes.
Context {A : Type} `{NA : Num A}.
Variable pole2plunge_bearing : list A -> list A -> list A * list A.

(** The calculators called with their default colours and [segments=100]. *)
Definition planar_events (cur : nat) (strike dip friction : arg A) (to_plot : bool)
    : list (event A) :=
  call cur CPlanarFriction (snd (planar_friction friction to_plot "none" "r" 100)) ++
  call cur CPlanarDaylight
    (snd (planar_daylight pole2plunge_bearing strike dip to_plot "none" "b" 100)).

Definition wedge_events (cur : nat) (strike dip friction : arg A) (to_plot : bool)
    : list (event A) :=
  call cur CWedgeFriction (snd (wedge_friction friction to_plot "none" "r" 100)) ++
  call cur CWedgeDaylight (snd (wedge_daylight strike dip to_plot "b" 100)).

(** [None] when [toppling_friction] raises. *)
Definition toppling_events (cur : nat) (strike dip friction : arg A) (to_plot : bool)
    : option (list (event A)) :=
  match toppling_friction strike dip friction to_plot "r" 100 with
  | None => None
  | Some (_, tf) =>
      Some (call cur CTopplingFriction tf ++
            call cur CTopplingSlipLimits
              (snd (toppling_slipLimits strike dip to_plot "b" 100)))
  end.

(** [setup_axes(strike, dip, friction, failure, to_plot)]: the effects on
    the figure and the returned [ax]; [None] when [toppling_friction]
    raises.  The envelopes drawn through mplstereonet are recorded as
    [EDraw] events and not executed: mplstereonet's [ax.cone] raises on
    empty arrays, which this model does not represent, so what it says
    about raising holds for [to_plot=False], where nothing is drawn. *)
Definition setup_axes (strike dip friction : arg A) (failure : string)
    (to_plot : bool) : option (list (event A) * axes) :=
  if String.eqb failure "all" then
    match toppling_events 2 strike dip friction to_plot with
    | None => None
    | Some top =>
        Some (ESubplots 3 :: map (fun a => ESlopeFace a strike dip) [0; 1; 2]%nat ++
              [ESca 0; ETitle 0 (title "planar"); EGrid 0] ++
              planar_events 0 strike dip friction to_plot ++
              [ESca 1; ETitle 1 (title "wedge"); EGrid 1] ++
              wedge_events 1 strike dip friction to_plot ++
              [ESca 2; ETitle 2 (title "toppling"); EGrid 2] ++ top,
              AxArray [0; 1; 2]%nat)
    end
  else
    let prefix := [EFigure; ESlopeFace 0 strike dip] in
    let body :=
      if String.eqb failure "planar" then
        Some ([ETitle 0 (title "planar"); EGrid 0] ++
              planar_events 0 strike dip friction to_plot)
      else if String.eqb failure "wedge" then
        Some ([ETitle 0 (title "wedge"); EGrid 0] ++
              wedge_events 0 strike dip friction to_plot)
      else if String.eqb failure "toppling" then
        match toppling_events 0 strike dip friction to_plot with
        | None => None
        | Some top => Some ([ETitle 0 (title "toppling"); EGrid 0] ++ top)
        end
      else Some [EGrid 0] in
    match body with
    | None => None
    | Some b => Some (prefix ++ b ++ [ETightLayout], AxSingle 0)
    end.

End SetupAxes.

(** ** A concrete pole conversion for evaluation

    The right-hand-rule pole of a plane: plunge [90 - dip], bearing
    [strike + 270] reduced below 360.  mplstereonet computes the same
    quantities through spherical trigonometry (with its own rounding); this
    closed form is only used to run the calculators on concrete inputs. *)
Definition pole_rhr {A} `{Num A} (strike dip : list A) : list A * list A :=
  (map (fun d => num_sub (lit 90) d) dip,
   map (fun s => let b := num_add s (lit 270) in
                 if num_gtb (lit 360) b then b else num_sub b (lit 360)) strike).

(** ** Reading the effects of [setup_axes] *)

(** The calculators entered, in order. *)
Fixpoint called {A} (ev : list (event A)) : list calc :=
  match ev with
  | [] => []
  | ECall c :: ev' => c :: called ev'
  | _ :: ev' => called ev'
  end.

(** The axes each envelope is drawn on, in order. *)
Fixpoint drawn_axes {A} (ev : list (event A)) : list nat :=
  match ev with
  | [] => []
  | EDraw a _ :: ev' => a :: drawn_axes ev'
  | _ :: ev' => drawn_axes ev'
  end.

(** The axes the slope face is drawn on, in order. *)
Fixpoint slope_axes {A} (ev : list (event A)) : list nat :=
  match ev with
  | [] => []
  | ESlopeFace a _ _ :: ev' => a :: slope_axes ev'
  | _ :: ev' => slope_axes ev'
  end.

(** [fig.tight_layout()] is called. *)
Definition has_tight_layout {A} (ev : list (event A)) : bool :=
  existsb (fun e => match e with ETightLayout => true | _ => false end) ev.

(** The length of the broadcast of three 1-D shapes. *)
Definition bcast_len3 (a b c : nat) : option nat :=
  match bcast_len a b with
  | Some n => bcast_len n c
  | None => None
  end.

(** * Properties *)

(** ** Broadcasting lemmas *)

Lemma bcast_len_keep (n k : nat) :
  k = n \/ k = 1%nat -> bcast_len n k = Some n.
Proof.
  unfold bcast_len; intros [-> | ->].
  - now rewrite Nat.eqb_refl.
  - destruct (Nat.eqb_spec n 1) as [->|Hn]; reflexivity.
Qed.

Lemma bget_nth {T} (d : T) (xs : list T) (i : nat) :
  (i < length xs)%nat -> bget d xs i = nth i xs d.
Proof.
  destruct xs as [|x [|y ys]]; simpl; intros Hi; try reflexivity.
  now replace i with 0%nat by lia.
Qed.

Lemma bget_singleton {T} (d x : T) (i : nat) : bget d [x] i = x.
Proof. reflexivity. Qed.

Lemma nth_repeat_same {T} (d : T) (k i : nat) : nth i (repeat d k) d = d.
Proof.
  revert i; induction k as [|k IH]; intros [|i]; simpl; auto.
Qed.

Lemma bget_repeat {T} (d : T) (k i : nat) : bget d (repeat d k) i = d.
Proof.
  destruct k as [|[|k]]; [destruct i; reflexivity | reflexivity |].
  change (nth i (repeat d (S (S k))) d = d). apply nth_repeat_same.
Qed.

Lemma nth_map_seq {T} (f : nat -> T) (n i : nat) (d : T) :
  (i < n)%nat -> nth i (map f (seq 0 n)) d = f i.
Proof.
  intros Hi.
  rewrite nth_indep with (d' := f 0%nat) by (rewrite length_map, length_seq; lia).
  rewrite map_nth, seq_nth by lia. reflexivity.
Qed.

Lemma length_map_seq {T} (f : nat -> T) (n : nat) :
  length (map f (seq 0 n)) = n.
Proof. now rewrite length_map, length_seq. Qed.

(** The elementwise shape of [toppling_friction] for any arithmetic: the
    strike is passed through, and dip element [i] is [d_i - f_i] when
    [d_i - f_i > 0] and [0] otherwise. *)
Lemma toppling_friction_elems {A} `{Num A} (s d f : arg A) to_plot linecolor segments :
  let D := atleast_1d d in
  let F := atleast_1d f in
  let S := atleast_1d s in
  (length F = length D \/ length F = 1%nat) ->
  (length S = length D \/ length S = 1%nat) ->
  exists tfe_dip draws,
    toppling_friction s d f to_plot linecolor segments = Some ((S, tfe_dip), draws) /\
    length tfe_dip = length D /\
    forall i, (i < length D)%nat ->
      let x := num_sub (nth i D (lit 0)) (bget (lit 0) F i) in
      nth i tfe_dip (lit 0) = if num_gtb x (lit 0) then x else lit 0.
Proof.
  intros D F S HF HS.
  unfold toppling_friction, bcast2, np_where; fold D F S.
  rewrite (bcast_len_keep _ _ HF).
  rewrite !length_map, length_seq.
  rewrite (bcast_len_keep (length D) (length D) (or_introl eq_refl)).
  rewrite (bcast_len_keep (length D) (length (repeat (lit 0) (length S))))
    by (rewrite repeat_length; exact HS).
  eexists; eexists; split; [reflexivity|]. split; [apply length_map_seq|].
  intros i Hi; cbv zeta.
  rewrite nth_map_seq by exact Hi.
  rewrite bget_repeat, map_map.
  rewrite (bget_nth false) by (rewrite length_map_seq; exact Hi).
  rewrite (bget_nth (lit 0)) by (rewrite length_map_seq; exact Hi).
  rewrite !nth_map_seq by exact Hi.
  rewrite (bget_nth (lit 0) D) by exact Hi.
  reflexivity.
Qed.

(** ** Toppling friction envelope *)

(** The examples of the specification: strike [45], dip [70], friction [30]
    gives dip [40]; dip [20] gives [0]. *)
Example toppling_friction_spec_examples :
  toppling_friction (A:=Q) (Seq [45]) (Seq [70; 20]) (Seq [30]) false "r" 100
  = Some (([45], [40; 0]), []).
Proof. reflexivity. Qed.

(** C1. For every strike, dip and friction, scalar or broadcast against the
    dip array, [toppling_friction] returns the strike unchanged and, for
    every element, the dip [d - f] when that difference is positive and [0]
    otherwise, i.e. [max(d - f, 0)]; the returned dip is never negative. *)
Theorem toppling_friction_clamp (s d f : arg Q) to_plot linecolor segments :
  let D := atleast_1d d in
  let F := atleast_1d f in
  let S := atleast_1d s in
  (length F = length D \/ length F = 1%nat) ->
  (length S = length D \/ length S = 1%nat) ->
  exists tfe_dip draws,
    toppling_friction s d f to_plot linecolor segments = Some ((S, tfe_dip), draws) /\
    length tfe_dip = length D /\
    forall i, (i < length D)%nat ->
      let x := nth i D 0 - bget 0 F i in
      nth i tfe_dip 0 = (if Qlt_le_dec 0 x then x else 0) /\
      nth i tfe_dip 0 == Qmax x 0 /\
      0 <= nth i tfe_dip 0.
Proof.
  intros D F S HF HS.
  destruct (toppling_friction_elems s d f to_plot linecolor segments HF HS)
    as (t & dr & Heq & Hl & Hn).
  exists t, dr; split; [exact Heq|]; split; [exact Hl|].
  intros i Hi x.
  assert (Hx : nth i t 0 = if negb (Qle_bool x 0) then x else 0) by exact (Hn i Hi).
  rewrite Hx.
  destruct (Qlt_le_dec 0 x) as [Hpos|Hneg].
  - assert (Hb : Qle_bool x 0 = false).
    { destruct (Qle_bool x 0) eqn:E; [|reflexivity].
      apply Qle_bool_iff in E. exfalso. apply (Qlt_not_le 0 x); assumption. }
    rewrite Hb; simpl. split; [reflexivity|]. split.
    + symmetry; apply Q.max_l; apply Qlt_le_weak; exact Hpos.
    + apply Qlt_le_weak; exact Hpos.
  - assert (Hb : Qle_bool x 0 = true) by (apply Qle_bool_iff; exact Hneg).
    rewrite Hb; simpl. split; [reflexivity|]. split.
    + symmetry; apply Q.max_r; exact Hneg.
    + apply Qle_refl.
Qed.

Lemma toppling_friction_clamp_witness :
  exists tfe_dip draws,
    toppling_friction (A:=Q) (Seq [45]) (Seq [70; 20]) (Seq [30]) false "r" 100
      = Some (([45], tfe_dip), draws) /\ length tfe_dip = 2%nat.
Proof.
  destruct (toppling_friction_clamp (Seq [45]) (Seq [70; 20]) (Seq [30]) false "r" 100)
    as (t & dr & H1 & H2 & _).
  - right; reflexivity.
  - right; reflexivity.
  - exists t, dr; split; [exact H1 | exact H2].
Defined.

Lemma Forall2_map_eq {T U} (f : T -> U) (l : list T) :
  Forall2 (fun x y => y = f x) l (map f l).
Proof. induction l as [|x l IH]; constructor; auto. Qed.

Lemma Forall2_map_impl {T U} (P : T -> U -> Prop) (f : T -> U) (l : list T) :
  (forall x, P x (f x)) -> Forall2 P l (map f l).
Proof. intros HP; induction l as [|x l IH]; constructor; auto. Qed.

(** ** Planar daylight envelope *)

(** C2. For every strike and dip, with [(p_plunge, p_bearing)] the pole the
    external service computes for the plane, [planar_daylight] returns
    elementwise plunge [45 + p_plunge/2], bearing [p_bearing] and angle
    [45 - p_plunge/2 - 1e-9], each evaluated as the code does (for the
    double-precision instance, with the rounding of each operation). *)
Theorem planar_daylight_envelope {A} `{Num A}
    (pole : list A -> list A -> list A * list A) (s d : arg A)
    to_plot facecolor edgecolor segments :
  let '(p_plunge, p_bearing) := pole (atleast_1d s) (atleast_1d d) in
  let '(pde_plunge, pde_bearing, pde_angle) :=
    fst (planar_daylight pole s d to_plot facecolor edgecolor segments) in
  Forall2 (fun p x => x = num_add (lit 45) (num_div p (lit 2))) p_plunge pde_plunge /\
  pde_bearing = p_bearing /\
  Forall2 (fun p a => a = num_sub (num_sub (lit 45) (num_div p (lit 2))) num_eps)
    p_plunge pde_angle.
Proof.
  unfold planar_daylight; simpl.
  destruct (pole (atleast_1d s) (atleast_1d d)) as [pp pb]; simpl.
  split; [apply Forall2_map_eq|]. split; [reflexivity|apply Forall2_map_eq].
Qed.

(** ** Toppling slip limits *)

(** C4. For every strike and dip, [toppling_slipLimits] returns plunge [0],
    bearing equal to the strike input elementwise, and angle [60]: the plunge
    and the angle are the Python numbers [0] and [60], so under broadcasting
    every element of the angle is [60] whatever the input length. *)
Theorem toppling_slipLimits_cone {A} `{Num A} (s d : arg A) to_plot linecolor segments :
  let '(tsl_plunge, tsl_bearing, tsl_angle) :=
    fst (toppling_slipLimits s d to_plot linecolor segments) in
  tsl_plunge = VScalar (lit 0) /\
  tsl_bearing = VArr (atleast_1d s) /\
  (forall i, vat (lit 0) tsl_bearing i = nth i (atleast_1d s) (lit 0)) /\
  tsl_angle = VScalar (lit 60) /\
  (forall i, vat (lit 0) tsl_angle i = lit 60).
Proof. simpl. repeat split. Qed.

(** ** Wedge envelopes *)

(** C5. For every input, including any strike value, [wedge_daylight]
    returns the strike and dip unchanged (as the 1-D arrays [np.atleast_1d]
    makes of them, with no check on the values), so the pole of its output is
    the pole of the original slope orientation. *)
Theorem wedge_daylight_identity {A} `{Num A}
    (pole : list A -> list A -> list A * list A) (s d : arg A)
    to_plot linecolor segments :
  let '(wde_strike, wde_dip) := fst (wedge_daylight s d to_plot linecolor segments) in
  wde_strike = atleast_1d s /\ wde_dip = atleast_1d d /\
  pole wde_strike wde_dip = pole (atleast_1d s) (atleast_1d d).
Proof. simpl. repeat split. Qed.

Example wedge_daylight_sequence_unchanged :
  fst (wedge_daylight (A:=Q) (Seq [-30; 400]) (Seq [70; 95]) false "b" 100)
  = ([-30; 400], [70; 95]).
Proof. reflexivity. Qed.

(** C6. For every friction input [f], [wedge_friction] returns plunge [90]
    and bearing [0] for every element and angle [90 - f] elementwise, which
    is negative when [f > 90]; it never fails. *)
Theorem wedge_friction_cone (f : arg Q) to_plot facecolor edgecolor segments :
  let F := atleast_1d f in
  let '(wfe_plunge, wfe_bearing, wfe_angle) :=
    fst (wedge_friction f to_plot facecolor edgecolor segments) in
  wfe_plunge = repeat 90 (length F) /\
  wfe_bearing = repeat 0 (length F) /\
  Forall2 (fun f a => a = 90 - f /\ (90 < f -> a < 0)) F wfe_angle.
Proof.
  simpl. split; [reflexivity|]. split; [reflexivity|].
  apply Forall2_map_impl. intros x. split; [reflexivity|].
  intros Hx. unfold lit; simpl.
  apply (Qplus_lt_l _ _ x). setoid_replace (inject_Z 90 - x + x) with (inject_Z 90) by ring.
  setoid_replace (0 + x) with x by ring. exact Hx.
Qed.

(** ** Scalar and one-element calls *)

(** C8. For every calculator and every argument position, calling it with a
    number [x] and with the one-element sequence [[x]] (all other arguments
    equal) gives identical results, numeric outputs and drawing alike. *)
Theorem calculators_scalar_singleton {A} `{Num A}
    (pole : list A -> list A -> list A * list A) (x : A) (a b : arg A)
    to_plot c1 c2 segments :
  planar_daylight pole (Scalar x) a to_plot c1 c2 segments
    = planar_daylight pole (Seq [x]) a to_plot c1 c2 segments /\
  planar_daylight pole a (Scalar x) to_plot c1 c2 segments
    = planar_daylight pole a (Seq [x]) to_plot c1 c2 segments /\
  planar_friction (Scalar x) to_plot c1 c2 segments
    = planar_friction (Seq [x]) to_plot c1 c2 segments /\
  wedge_daylight (Scalar x) a to_plot c1 segments
    = wedge_daylight (Seq [x]) a to_plot c1 segments /\
  wedge_daylight a (Scalar x) to_plot c1 segments
    = wedge_daylight a (Seq [x]) to_plot c1 segments /\
  wedge_friction (Scalar x) to_plot c1 c2 segments
    = wedge_friction (Seq [x]) to_plot c1 c2 segments /\
  toppling_slipLimits (Scalar x) a to_plot c1 segments
    = toppling_slipLimits (Seq [x]) a to_plot c1 segments /\
  toppling_slipLimits a (Scalar x) to_plot c1 segments
    = toppling_slipLimits a (Seq [x]) to_plot c1 segments /\
  toppling_friction (Scalar x) a b to_plot c1 segments
    = toppling_friction (Seq [x]) a b to_plot c1 segments /\
  toppling_friction a (Scalar x) b to_plot c1 segments
    = toppling_friction a (Seq [x]) b to_plot c1 segments /\
  toppling_friction a b (Scalar x) to_plot c1 segments
    = toppling_friction a b (Seq [x]) to_plot c1 segments.
Proof. repeat split. Qed.

(** ** Style options *)

(** C10. For every calculator, the numeric results do not depend on
    [segments] nor on the colour options: two calls that differ only in
    them return the same numbers (only the drawing commands differ). *)
Theorem calculators_style_independent {A} `{Num A}
    (pole : list A -> list A -> list A * list A) (s d f : arg A) to_plot
    (c1 c2 c1' c2' : string) (seg seg' : Z) :
  fst (planar_daylight pole s d to_plot c1 c2 seg)
    = fst (planar_daylight pole s d to_plot c1' c2' seg') /\
  fst (planar_friction f to_plot c1 c2 seg)
    = fst (planar_friction f to_plot c1' c2' seg') /\
  fst (wedge_daylight s d to_plot c1 seg)
    = fst (wedge_daylight s d to_plot c1' seg') /\
  fst (wedge_friction f to_plot c1 c2 seg)
    = fst (wedge_friction f to_plot c1' c2' seg') /\
  fst (toppling_slipLimits s d to_plot c1 seg)
    = fst (toppling_slipLimits s d to_plot c1' seg') /\
  option_map fst (toppling_friction s d f to_plot c1 seg)
    = option_map fst (toppling_friction s d f to_plot c1' seg').
Proof.
  repeat split.
  - unfold planar_daylight; destruct (pole _ _); reflexivity.
  - unfold toppling_friction.
    destruct (bcast2 _ _ _ _ _) as [diff|]; [|reflexivity].
    destruct (np_where _ _ _ _); reflexivity.
Qed.

(** ** [setup_axes] with an unknown failure mode *)

(** C9. When [failure] is none of ["planar"], ["wedge"], ["toppling"],
    ["all"], [setup_axes] does not raise: it returns a single stereonet axes
    on which only the slope face and the grid are drawn, and none of the six
    calculators is called. *)
Theorem setup_axes_unknown_failure {A} `{Num A}
    (pole : list A -> list A -> list A * list A) (s d f : arg A)
    (failure : string) (to_plot : bool) :
  failure <> "all"%string -> failure <> "planar"%string ->
  failure <> "wedge"%string -> failure <> "toppling"%string ->
  exists events,
    setup_axes pole s d f failure to_plot = Some (events, AxSingle 0) /\
    events = [EFigure; ESlopeFace 0 s d; EGrid 0; ETightLayout] /\
    forall c, ~ In (ECall c) events.
Proof.
  intros Ha Hp Hw Ht.
  unfold setup_axes.
  apply String.eqb_neq in Ha, Hp, Hw, Ht.
  rewrite Ha, Hp, Hw, Ht.
  eexists; split; [reflexivity|]. split; [reflexivity|].
  intros c Hin; simpl in Hin.
  repeat (destruct Hin as [Hin|Hin]; [discriminate Hin|]); exact Hin.
Qed.

Lemma setup_axes_unknown_failure_witness :
  setup_axes (A:=Q) pole_rhr (Scalar 0) (Scalar 70) (Scalar 30) "bogus" true
  = Some ([EFigure; ESlopeFace 0 (Scalar 0) (Scalar 70); EGrid 0; ETightLayout],
          AxSingle 0).
Proof.
  destruct (setup_axes_unknown_failure (A:=Q) pole_rhr (Scalar 0) (Scalar 70)
              (Scalar 30) "bogus" true) as (ev & Hs & He & _);
    try discriminate.
  rewrite Hs, He; reflexivity.
Defined.

(** ** Output lengths *)

(** [v] is a numpy array of length [n]. *)
Definition is_arr_len {A} (n : nat) (v : val A) : bool :=
  match v with
  | VArr xs => Nat.eqb (length xs) n
  | VScalar _ => false
  end.

(** C3 as stated fails: with a scalar strike broadcast against two-element
    dip and friction, [toppling_friction] returns a one-element strike array
    next to a two-element dip array (the strike is passed through, not
    broadcast).  Besides, with two-element strike and dip the plunge and the
    angle of [toppling_slipLimits] are the numbers [0] and [60], not the
    arrays its docstring announces. *)
Lemma calculators_length_counterexample :
  (let '(tsl_plunge, _, tsl_angle) :=
     fst (toppling_slipLimits (A:=Q) (Seq [1; 2]) (Seq [3; 4]) false "b" 100) in
   is_arr_len 2 tsl_plunge = false /\ is_arr_len 2 tsl_angle = false) /\
  option_map (fun r => (length (fst (fst r)), length (snd (fst r))))
    (toppling_friction (A:=Q) (Scalar 45) (Seq [70; 20]) (Seq [30; 30]) false "r" 100)
  = Some (1%nat, 2%nat).
Proof. split; [split|]; reflexivity. Qed.
(** C3 (amended). For any inputs, every array the calculators return has
    the length the code gives it: [planar_daylight]'s plunge and angle have
    the length of the pole service's plunge array and its bearing that of
    the pole bearing array; [planar_friction]'s and [wedge_friction]'s
    arrays have the friction input's length; [wedge_daylight] returns strike
    and dip each with its own input's length; [toppling_slipLimits]'s
    bearing is an array of the strike input's length; [toppling_friction]
    raises when dip, friction and strike do not broadcast, and otherwise
    returns a dip of their broadcast length and the strike with the strike
    input's own length.  (The plunge and angle of [toppling_slipLimits] are
    not described here.) *)
Theorem calculators_output_lengths {A} `{Num A}
    (pole : list A -> list A -> list A * list A) (s d f : arg A)
    to_plot (c1 c2 : string) (segments : Z) :
  (let '(a, b, c) := fst (planar_daylight pole s d to_plot c1 c2 segments) in
   length a = length (fst (pole (atleast_1d s) (atleast_1d d))) /\
   length b = length (snd (pole (atleast_1d s) (atleast_1d d))) /\
   length c = length (fst (pole (atleast_1d s) (atleast_1d d)))) /\
  (let '(a, b, c) := fst (planar_friction f to_plot c1 c2 segments) in
   length a = length (atleast_1d f) /\ length b = length (atleast_1d f) /\
   length c = length (atleast_1d f)) /\
  (let '(a, b) := fst (wedge_daylight s d to_plot c1 segments) in
   length a = length (atleast_1d s) /\ length b = length (atleast_1d d)) /\
  (let '(a, b, c) := fst (wedge_friction f to_plot c1 c2 segments) in
   length a = length (atleast_1d f) /\ length b = length (atleast_1d f) /\
   length c = length (atleast_1d f)) /\
  (let '(_, b, _) := fst (toppling_slipLimits s d to_plot c1 segments) in
   is_arr_len (length (atleast_1d s)) b = true) /\
  (match toppling_friction s d f to_plot c1 segments with
   | None =>
       bcast_len3 (length (atleast_1d d)) (length (atleast_1d f))
                  (length (atleast_1d s)) = None
   | Some ((a, b), _) =>
       length a = length (atleast_1d s) /\
       bcast_len3 (length (atleast_1d d)) (length (atleast_1d f))
                  (length (atleast_1d s)) = Some (length b)
   end).
Proof.
  split; [|split; [|split; [|split; [|split]]]].
  - unfold planar_daylight.
    destruct (pole (atleast_1d s) (atleast_1d d)) as [pp pb]; simpl.
    rewrite !length_map; auto.
  - simpl. rewrite !repeat_length; auto.
  - simpl; auto.
  - simpl. rewrite !repeat_length, length_map; auto.
  - simpl. apply Nat.eqb_refl.
  - unfold toppling_friction, bcast2, np_where, bcast_len3.
    destruct (bcast_len (length (atleast_1d d)) (length (atleast_1d f))) as [n1|];
      [|reflexivity].
    rewrite !length_map, length_seq.
    rewrite (bcast_len_keep n1 n1 (or_introl eq_refl)), repeat_length.
    destruct (bcast_len n1 (length (atleast_1d s))) as [n|]; [|reflexivity].
    split; [reflexivity|]. now rewrite length_map_seq.
Qed.

(** ** The epsilon of the planar daylight angle *)



(** ** More of [toppling_friction] *)

(** [toppling_friction] raises exactly when the dip, friction and strike
    arrays cannot be broadcast together; otherwise it returns the strike
    array and a dip array of the broadcast length. *)
Theorem toppling_friction_shape {A} `{Num A} (s d f : arg A) to_plot linecolor segments :
  match toppling_friction s d f to_plot linecolor segments with
  | None =>
      bcast_len3 (length (atleast_1d d)) (length (atleast_1d f))
                 (length (atleast_1d s)) = None
  | Some ((tfe_strike, tfe_dip), _) =>
      tfe_strike = atleast_1d s /\
      bcast_len3 (length (atleast_1d d)) (length (atleast_1d f))
                 (length (atleast_1d s)) = Some (length tfe_dip)
  end.
Proof.
  unfold toppling_friction, bcast2, np_where, bcast_len3.
  destruct (bcast_len (length (atleast_1d d)) (length (atleast_1d f))) as [n1|];
    [|reflexivity].
  rewrite !length_map, length_seq.
  rewrite (bcast_len_keep n1 n1 (or_introl eq_refl)), repeat_length.
  destruct (bcast_len n1 (length (atleast_1d s))) as [n|]; [|reflexivity].
  split; [reflexivity|]. now rewrite length_map_seq.
Qed.

Lemma map_seq_const {T} (x : T) (n : nat) :
  map (fun _ => x) (seq 0 n) = repeat x n.
Proof.
  generalize 0%nat; induction n as [|n IH]; intros k; simpl; [reflexivity|].
  now rewrite IH.
Qed.

(** With a single dip and a single friction, [toppling_friction] repeats
    the clamped value [d - f] (or [0]) once per strike: the zeros array of
    the strike's length broadcasts the dip to that length, and an empty
    strike gives an empty dip. *)
Theorem toppling_friction_single_dip {A} `{Num A} (s : arg A) (dv fv : A)
    to_plot linecolor segments :
  option_map fst (toppling_friction s (Scalar dv) (Scalar fv) to_plot linecolor segments)
  = Some (atleast_1d s,
          repeat (let x := num_sub dv fv in if num_gtb x (lit 0) then x else lit 0)
                 (length (atleast_1d s))).
Proof.
  unfold toppling_friction, bcast2, np_where; simpl.
  rewrite repeat_length.
  assert (Hb : bcast_len 1 (length (atleast_1d s)) = Some (length (atleast_1d s))).
  { unfold bcast_len. destruct (Nat.eqb_spec 1 (length (atleast_1d s))) as [<-|_];
      reflexivity. }
  rewrite Hb; simpl. f_equal. f_equal.
  destruct (num_gtb (num_sub dv fv) (lit 0)); [apply map_seq_const|].
  rewrite (map_ext _ (fun _ => lit 0)) by (intros i; apply bget_repeat).
  apply map_seq_const.
Qed.


(** ** Broadcasting in [toppling_friction], in general *)

Lemma bcast_len_one (a b : nat) :
  bcast_len a b = Some 1%nat -> a = 1%nat /\ b = 1%nat.
Proof.
  unfold bcast_len.
  destruct (Nat.eqb_spec a b) as [->|_]; [intros H; injection H; intros; subst; auto|].
  destruct (Nat.eqb_spec a 1) as [->|_]; [intros H; injection H; intros; subst; auto|].
  destruct (Nat.eqb_spec b 1) as [->|_]; [intros H; injection H; intros; subst; auto|].
  discriminate.
Qed.

Lemma bcast_len_not_one (m k n : nat) :
  bcast_len m k = Some n -> m <> 1%nat -> n = m.
Proof.
  unfold bcast_len.
  destruct (Nat.eqb_spec m k); [congruence|].
  destruct (Nat.eqb_spec m 1); [congruence|].
  destruct (Nat.eqb_spec k 1); congruence.
Qed.

(** Whenever [toppling_friction] returns, dip element [i] is the clamped
    difference of the broadcast dip and friction elements [i]. *)
Lemma toppling_friction_elems_bcast {A} `{Num A} (s d f : arg A) to_plot linecolor
    segments (S' T : list A) (ds : list (draw A)) :
  toppling_friction s d f to_plot linecolor segments = Some ((S', T), ds) ->
  forall i, (i < length T)%nat ->
    let x := num_sub (bget (lit 0) (atleast_1d d) i) (bget (lit 0) (atleast_1d f) i) in
    nth i T (lit 0) = if num_gtb x (lit 0) then x else lit 0.
Proof.
  unfold toppling_friction, bcast2, np_where.
  destruct (bcast_len (length (atleast_1d d)) (length (atleast_1d f))) as [n1|] eqn:E1;
    [|discriminate].
  rewrite !length_map, length_seq.
  rewrite (bcast_len_keep n1 n1 (or_introl eq_refl)).
  destruct (bcast_len n1 (length (repeat (lit 0) (length (atleast_1d s))))) as [n|] eqn:E2;
    [|discriminate].
  intros Heq; injection Heq; intros _ HT _; subst T.
  intros i Hi; cbv zeta.
  rewrite length_map_seq in Hi.
  rewrite nth_map_seq by exact Hi.
  rewrite bget_repeat, map_map.
  destruct (Nat.eq_dec n1 1) as [->|Hn1].
  - apply bcast_len_one in E1 as [HD HF].
    destruct (atleast_1d d) as [|dv [|]]; try discriminate.
    destruct (atleast_1d f) as [|fv [|]]; try discriminate.
    reflexivity.
  - apply bcast_len_not_one in E2; [|exact Hn1]. subst n.
    rewrite (bget_nth false) by (rewrite length_map_seq; exact Hi).
    rewrite (bget_nth (lit 0)) by (rewrite length_map_seq; exact Hi).
    rewrite !nth_map_seq by exact Hi.
    reflexivity.
Qed.

(** Whenever [toppling_friction] returns (its inputs broadcast), with
    non-negative dip and friction the returned dip lies between [0] and the
    broadcast input dip, and it is [0] exactly where the dip does not exceed
    the friction angle. *)
Theorem toppling_friction_dip_bounds (s d f : arg Q) to_plot linecolor segments :
  match toppling_friction s d f to_plot linecolor segments with
  | None => True
  | Some ((_, tfe_dip), _) =>
      forall i, (i < length tfe_dip)%nat ->
        let di := bget 0 (atleast_1d d) i in
        let fi := bget 0 (atleast_1d f) i in
        (0 <= fi -> 0 <= di -> 0 <= nth i tfe_dip 0 /\ nth i tfe_dip 0 <= di) /\
        (nth i tfe_dip 0 == 0 <-> di <= fi)
  end.
Proof.
  destruct (toppling_friction s d f to_plot linecolor segments) as [[[a t] dr]|] eqn:E;
    [|exact I].
  intros i Hi di fi.
  assert (Hx : nth i t 0 = if negb (Qle_bool (di - fi) 0) then di - fi else 0)
    by exact (toppling_friction_elems_bcast s d f to_plot linecolor segments a t dr E i Hi).
  rewrite Hx.
  destruct (Qle_bool (di - fi) 0) eqn:Eb; simpl.
  - apply Qle_bool_iff in Eb.
    split.
    + intros _ Hd; split; [apply Qle_refl | exact Hd].
    + split; intros _; [|reflexivity].
      apply (Qplus_le_l _ _ (- fi)). setoid_replace (fi + - fi) with 0 by ring.
      exact Eb.
  - assert (Hlt : 0 < di - fi).
    { apply Qnot_le_lt. intros Hle. apply Qle_bool_iff in Hle. congruence. }
    split.
    + intros Hf _; split; [apply Qlt_le_weak; exact Hlt|].
      apply (Qplus_le_l _ _ fi). setoid_replace (di - fi + fi) with di by ring.
      rewrite <- (Qplus_0_r di) at 1. apply Qplus_le_r. exact Hf.
    + split; intros Hc.
      * exfalso. rewrite Hc in Hlt. apply (Qlt_irrefl 0); exact Hlt.
      * exfalso. apply (Qlt_not_le 0 (di - fi)); [exact Hlt|].
        apply (Qplus_le_l _ _ fi). setoid_replace (di - fi + fi) with di by ring.
        setoid_replace (0 + fi) with fi by ring. exact Hc.
Qed.

(** A scalar dip broadcast against two friction angles. *)
Example toppling_friction_scalar_dip_example :
  toppling_friction (A:=Q) (Scalar 45) (Scalar 70) (Seq [30; 50]) false "r" 100
  = Some (([45], [40; 20]), []).
Proof. reflexivity. Qed.

(** ** More of [setup_axes] *)

Lemma toppling_friction_draws {A} `{Num A} (s d f : arg A) to_plot linecolor segments
    (a b : list A) (ds : list (draw A)) :
  toppling_friction s d f to_plot linecolor segments = Some ((a, b), ds) ->
  ds = when_plot to_plot (DPlane (VArr a) (VArr b) linecolor).
Proof.
  unfold toppling_friction.
  destruct (bcast2 _ _ _ _ _) as [diff|]; [|discriminate].
  destruct (np_where _ _ _ _); [|discriminate].
  intros Heq; injection Heq; intros; subst; reflexivity.
Qed.
(** With [failure='all'] and [to_plot=False] (so that no envelope is
    drawn), [setup_axes] raises exactly when [toppling_friction] does;
    otherwise it returns three axes, draws the slope face on each, enters
    the six calculators in the order planar friction, planar daylight,
    wedge friction, wedge daylight, toppling friction, toppling slip limits,
    draws no envelope and never calls [tight_layout]. *)
Theorem setup_axes_all_mode {A} `{Num A}
    (pole : list A -> list A -> list A * list A) (s d f : arg A) :
  match toppling_friction s d f false "r" 100 with
  | None => setup_axes pole s d f "all" false = None
  | Some _ =>
      exists ev,
        setup_axes pole s d f "all" false = Some (ev, AxArray [0; 1; 2]%nat) /\
        slope_axes ev = [0; 1; 2]%nat /\
        called ev = [CPlanarFriction; CPlanarDaylight; CWedgeFriction;
                     CWedgeDaylight; CTopplingFriction; CTopplingSlipLimits] /\
        drawn_axes ev = [] /\
        has_tight_layout ev = false
  end.
Proof.
  unfold setup_axes, toppling_events, planar_events, wedge_events, planar_daylight.
  destruct (pole _ _) as [pp pb].
  destruct (toppling_friction s d f false "r" 100) as [[[a b] ds]|] eqn:E;
    [|reflexivity].
  apply toppling_friction_draws in E. subst ds.
  eexists; split; [reflexivity|].
  repeat split.
Qed.

(** With [failure] one of ['planar'], ['wedge'], ['toppling'] and
    [to_plot=False], [setup_axes] returns a single axes with the slope face,
    enters only the two calculators of that failure mode, draws no envelope
    and calls [tight_layout]; the ['toppling'] mode raises exactly when
    [toppling_friction] does. *)
Theorem setup_axes_single_modes {A} `{Num A}
    (pole : list A -> list A -> list A * list A) (s d f : arg A) :
  (exists ev,
     setup_axes pole s d f "planar" false = Some (ev, AxSingle 0) /\
     slope_axes ev = [0%nat] /\ called ev = [CPlanarFriction; CPlanarDaylight] /\
     drawn_axes ev = [] /\ has_tight_layout ev = true) /\
  (exists ev,
     setup_axes pole s d f "wedge" false = Some (ev, AxSingle 0) /\
     slope_axes ev = [0%nat] /\ called ev = [CWedgeFriction; CWedgeDaylight] /\
     drawn_axes ev = [] /\ has_tight_layout ev = true) /\
  (match toppling_friction s d f false "r" 100 with
   | None => setup_axes pole s d f "toppling" false = None
   | Some _ =>
       exists ev,
         setup_axes pole s d f "toppling" false = Some (ev, AxSingle 0) /\
         slope_axes ev = [0%nat] /\
         called ev = [CTopplingFriction; CTopplingSlipLimits] /\
         drawn_axes ev = [] /\ has_tight_layout ev = true
   end).
Proof.
  unfold setup_axes, toppling_events, planar_events, wedge_events, planar_daylight.
  destruct (pole _ _) as [pp pb].
  split; [|split].
  - eexists; split; [reflexivity|]. repeat split.
  - eexists; split; [reflexivity|]. repeat split.
  - destruct (toppling_friction s d f false "r" 100) as [[[a b] ds]|] eqn:E;
      [|reflexivity].
    apply toppling_friction_draws in E. subst ds.
    eexists; split; [reflexivity|].
    repeat split.
Qed.

(** With [to_plot=False], [setup_axes] raises only through
    [toppling_friction]: it fails exactly when [failure] is ['all'] or
    ['toppling'] and [toppling_friction] raises on the given strike, dip and
    friction. *)
Theorem setup_axes_raises {A} `{Num A}
    (pole : list A -> list A -> list A * list A) (s d f : arg A)
    (failure : string) :
  setup_axes pole s d f failure false = None <->
  ((failure = "all"%string \/ failure = "toppling"%string) /\
   toppling_friction s d f false "r" 100 = None).
Proof.
  unfold setup_axes, toppling_events.
  destruct (toppling_friction s d f false "r" 100) as [[[a b] ds]|] eqn:E.
  - split; [|intros [_ Hc]; discriminate].
    destruct (String.eqb_spec failure "all"); [discriminate|].
    destruct (String.eqb_spec failure "planar"); [discriminate|].
    destruct (String.eqb_spec failure "wedge"); [discriminate|].
    destruct (String.eqb_spec failure "toppling"); discriminate.
  - destruct (String.eqb_spec failure "all") as [->|Ha].
    + split; [intros _; split; [left|]; reflexivity | reflexivity].
    + destruct (String.eqb_spec failure "planar") as [->|Hp].
      { split; [discriminate|]. intros [[Hc|Hc] _]; discriminate Hc. }
      destruct (String.eqb_spec failure "wedge") as [->|Hw].
      { split; [discriminate|]. intros [[Hc|Hc] _]; discriminate Hc. }
      destruct (String.eqb_spec failure "toppling") as [->|Ht].
      { split; [intros _; split; [right|]; reflexivity | reflexivity]. }
      split; [discriminate|]. intros [[Hc|Hc] _]; contradiction.
Qed.
